(** * Stock-movement ledger of the inventory server

    A shallow embedding of the stock routes of
    [src/supabase/functions/server/index.tsx]:

    - [PATCH /products/:id/stock]   (direct stock update),
    - [POST  /movements]            (movement registration),
    - [GET   /movements/stats]      (statistics),

    together with the properties of the ledger that the specification
    states about them; then of [verifyAuth], of the product, movement-list,
    seeding and user routes of the same file, and of the client code that
    calls them (the movement form, the product list, the inventory figures
    and the offline stock update), with what the code shows about them.

    Modelling conventions.

    - A JavaScript number is an exact rational ([Qc], canonical fractions
      with Leibniz equality).  The handlers only add, subtract and compare
      numbers; on integers below 2^53 and on the dyadic fractions used in
      the examples the IEEE-754 results are these exact ones.  [NaN]
      cannot be written in a JSON body; literals beyond the range of a
      double are left out.
    - The key-value store is split by key prefix: [product:{id}],
      [movement:{productId}:{movementId}] and [user:{id}] are three finite
      maps.  [kv.get] is lookup, [kv.set] is insert.
    - An ISO date string is represented by its time value in milliseconds
      ([new Date(s).getTime()]).
    - The clock and the random generator are inputs of a handler
      ([Effects]); [verifyAuth] is the input [auth], [None] when it
      reports an error.
    - The [catch] branches (a failing store) are not modelled: the maps
      are total. *)

From Stdlib Require Import QArith Qcanon.
From stdpp Require Import gmap strings list numbers sorting pretty.

Local Open Scope Z_scope.

(** ** JSON values and JavaScript primitives *)

Inductive JsValue :=
  | JUndefined
  | JNull
  | JBool (b : bool)
  | JNumber (n : Qc)
  | JString (s : string).

Definition typeof (v : JsValue) : string :=
  match v with
  | JUndefined => "undefined"
  | JNull => "object"
  | JBool _ => "boolean"
  | JNumber _ => "number"
  | JString _ => "string"
  end.

(** [Math.max(a, b)] on numbers. *)
Definition Math_max (a b : Qc) : Qc :=
  if decide (a ≤ b)%Qc then b else a.

(** [Number.isInteger]. *)
Definition isInteger (x : Qc) : Prop := ∃ z : Z, x = Qc_of_Z z.

(** ** Data model ([types/inventory.ts], [types/auth.ts]) *)

Module Product.
Record t := mk {
  id : string;
  name : string;
  category : string;
  price : Qc;
  stock : Qc;
  minStock : Qc;
  description : option string;
  createdAt : Z;
  updatedAt : Z
}.
End Product.

Module StockMovement.
Record t := mk {
  id : string;
  productId : string;
  productName : string;
  type : string;
  quantity : Qc;
  reason : string;
  userId : string;
  userName : string;
  previousStock : Qc;
  newStock : Qc;
  createdAt : Z
}.
End StockMovement.

Module User.
Record t := mk {
  id : string;
  email : string;
  name : string;
  role : string;
  isActive : bool
}.
End User.

Global Instance Product_eq_dec : EqDecision Product.t.
Proof. solve_decision. Defined.
Global Instance StockMovement_eq_dec : EqDecision StockMovement.t.
Proof. solve_decision. Defined.

(** ** The key-value store *)

Record Store := mkStore {
  products : gmap string Product.t;
  movements : gmap (string * string) StockMovement.t;
  users : gmap string User.t
}.

(** [kv.getByPrefix('movement:')]: every stored movement, in the order
    the store returns them. *)
Definition getByPrefix_movement (st : Store) : list StockMovement.t :=
  (map_to_list (movements st)).*2.

(** What a handler reads from its environment. *)
Record Effects := mkEffects {
  Date_now : Z;            (* [Date.now()] in the movement id *)
  Math_random : string;    (* [Math.random().toString(36).substr(2, 9)] *)
  movement_time : Z;       (* [new Date()] of the movement's [createdAt] *)
  product_time : Z         (* [new Date()] of the product's [updatedAt] *)
}.

(** ** PATCH /products/:id/stock *)

Inductive StockResponse :=
  | SR_Unauthorized                         (* 401 *)
  | SR_InvalidQuantity                      (* 400 *)
  | SR_NotFound                             (* 404 *)
  | SR_Ok (product : Product.t).            (* 200 *)

Definition with_stock (p : Product.t) (newStock : Qc) (now : Z) : Product.t :=
  Product.mk (Product.id p) (Product.name p) (Product.category p)
    (Product.price p) newStock (Product.minStock p)
    (Product.description p) (Product.createdAt p) now.

Definition patch_stock (eff : Effects) (auth : option string)
    (id : string) (quantity : JsValue) (st : Store) : StockResponse * Store :=
  match auth with
  | None => (SR_Unauthorized, st)
  | Some _ =>
    match quantity with
    | JNumber q =>
      match products st !! id with
      | None => (SR_NotFound, st)
      | Some existingProduct =>
        let newStock := Math_max 0%Qc (Product.stock existingProduct + q)%Qc in
        let updatedProduct := with_stock existingProduct newStock (product_time eff) in
        (SR_Ok updatedProduct,
         mkStore (<[id := updatedProduct]> (products st)) (movements st) (users st))
      end
    | _ => (SR_InvalidQuantity, st)
    end
  end.

(** ** POST /movements *)

Record MovementRequest := mkRequest {
  productId : string;
  type : string;
  quantity : JsValue;
  reason : string          (* [reason || ''] : a missing reason is [""] *)
}.

Inductive MovementResponse :=
  | MR_Unauthorized                                   (* 401 *)
  | MR_InvalidFields                                  (* 400, missing or invalid fields *)
  | MR_InvalidType                                    (* 400, invalid movement type *)
  | MR_ProductNotFound                                (* 404 *)
  | MR_UserNotFound                                   (* 404 *)
  | MR_InsufficientStock (availableStock : Qc)        (* 400 *)
  | MR_Created (movement : StockMovement.t) (updatedProduct : Product.t). (* 201 *)

(** The spec's error kinds, as the handler's status codes realise them. *)
Inductive ErrorKind := InvalidInput | NotFound | InsufficientStock.

Definition error_kind (r : MovementResponse) : option ErrorKind :=
  match r with
  | MR_InvalidFields | MR_InvalidType => Some InvalidInput
  | MR_ProductNotFound | MR_UserNotFound => Some NotFound
  | MR_InsufficientStock _ => Some InsufficientStock
  | MR_Unauthorized | MR_Created _ _ => None
  end.

(** [!productId || !type || typeof quantity !== 'number' || quantity <= 0]:
    the request passes with the number it carries, or is rejected. *)
Definition validate_fields (body : MovementRequest) : option Qc :=
  if bool_decide (productId body = "") then None
  else if bool_decide (type body = "") then None
  else match quantity body with
       | JNumber q => if decide (q ≤ 0)%Qc then None else Some q
       | _ => None
       end.

(** [`${Date.now()}-${Math.random().toString(36).substr(2, 9)}`] *)
Definition movementId (eff : Effects) : string :=
  pretty (Date_now eff) +:+ "-" +:+ Math_random eff.

(** The stock computation of the handler: [inr newStock], or
    [inl availableStock] when the salida is refused. *)
Definition compute_newStock (type : string) (previousStock quantity : Qc)
    : Qc + Qc :=
  if bool_decide (type = "entrada") then
    inr (previousStock + quantity)%Qc
  else
    let newStock := Math_max 0%Qc (previousStock - quantity)%Qc in
    if decide (previousStock < quantity)%Qc then inl previousStock
    else inr newStock.

Definition post_movement (eff : Effects) (auth : option string)
    (body : MovementRequest) (st : Store) : MovementResponse * Store :=
  match auth with
  | None => (MR_Unauthorized, st)
  | Some user_id =>
    match validate_fields body with
    | None => (MR_InvalidFields, st)
    | Some quantity =>
      if negb (bool_decide (type body ∈ ["entrada"; "salida"])) then
        (MR_InvalidType, st)
      else
        match products st !! productId body with
        | None => (MR_ProductNotFound, st)
        | Some product =>
          match users st !! user_id with
          | None => (MR_UserNotFound, st)
          | Some userData =>
            let previousStock := Product.stock product in
            match compute_newStock (type body) previousStock quantity with
            | inl availableStock => (MR_InsufficientStock availableStock, st)
            | inr newStock =>
              let movement :=
                StockMovement.mk (movementId eff) (productId body)
                  (Product.name product) (type body) quantity (reason body)
                  user_id (User.name userData) previousStock newStock
                  (movement_time eff) in
              let updatedProduct :=
                with_stock product newStock (product_time eff) in
              (MR_Created movement updatedProduct,
               mkStore
                 (<[productId body := updatedProduct]> (products st))
                 (<[(productId body, movementId eff) := movement]> (movements st))
                 (users st))
            end
          end
        end
    end
  end.

(** ** GET /movements/stats *)

Module ProductStat.
Record t := mk {
  productId : string;
  productName : string;
  totalEntradas : Qc;
  totalSalidas : Qc;
  movementCount : nat
}.
End ProductStat.

Module Summary.
Record t := mk {
  totalMovements : nat;
  totalEntradas : nat;           (* [entradas.length] *)
  totalSalidas : nat;            (* [salidas.length] *)
  totalQuantityEntradas : Qc;
  totalQuantitySalidas : Qc;
  netMovement : Qc;
  recentMovements : nat
}.
End Summary.

Record MovementStatistics := mkStatistics {
  summary : Summary.t;
  productStats : list ProductStat.t;
  recentActivity : list StockMovement.t
}.

(** [l.reduce((sum, m) => sum + m.quantity, 0)] *)
Definition reduce_quantity (l : list StockMovement.t) : Qc :=
  foldl (λ sum m, sum + StockMovement.quantity m)%Qc 0%Qc l.

(** The body of the [productStats] reduction.  The accumulator is a
    JavaScript object used as a dictionary from product ids to entries;
    [!acc[k]] holds exactly when [k] has no entry: the entries are objects,
    and a product id (a decimal string, [Date.now().toString()] or a
    sample id) is never the name of a member of [Object.prototype]. *)
Definition productStats_step (acc : gmap string ProductStat.t)
    (movement : StockMovement.t) : gmap string ProductStat.t :=
  let k := StockMovement.productId movement in
  let acc1 :=
    match acc !! k with
    | None =>
      <[k := ProductStat.mk k (StockMovement.productName movement) 0%Qc 0%Qc 0%nat]> acc
    | Some _ => acc
    end in
  let acc2 :=
    alter (λ e, ProductStat.mk (ProductStat.productId e) (ProductStat.productName e)
                  (ProductStat.totalEntradas e) (ProductStat.totalSalidas e)
                  (S (ProductStat.movementCount e))) k acc1 in
  if bool_decide (StockMovement.type movement = "entrada") then
    alter (λ e, ProductStat.mk (ProductStat.productId e) (ProductStat.productName e)
                  (ProductStat.totalEntradas e + StockMovement.quantity movement)%Qc
                  (ProductStat.totalSalidas e)
                  (ProductStat.movementCount e)) k acc2
  else
    alter (λ e, ProductStat.mk (ProductStat.productId e) (ProductStat.productName e)
                  (ProductStat.totalEntradas e)
                  (ProductStat.totalSalidas e + StockMovement.quantity movement)%Qc
                  (ProductStat.movementCount e)) k acc2.

Definition productStats_reduce (movements : list StockMovement.t)
    : gmap string ProductStat.t :=
  foldl productStats_step ∅ movements.

(** [Object.values]: the entries of the dictionary.  Their order is not
    used by any statement below. *)
Definition Object_values (o : gmap string ProductStat.t) : list ProductStat.t :=
  (map_to_list o).*2.

(** [(a, b) => new Date(b.createdAt).getTime() - new Date(a.createdAt).getTime()] *)
Definition compareFn (a b : StockMovement.t) : Z :=
  StockMovement.createdAt b - StockMovement.createdAt a.

(** [Array.prototype.sort] is a stable sort: an element goes before the
    first one it does not have to follow. *)
Fixpoint sort_insert {A} (cmp : A → A → Z) (x : A) (l : list A) : list A :=
  match l with
  | [] => [x]
  | y :: l' =>
    if decide (cmp x y ≤ 0) then x :: y :: l' else y :: sort_insert cmp x l'
  end.

Definition Array_sort {A} (cmp : A → A → Z) (l : list A) : list A :=
  foldr (sort_insert cmp) [] l.

(** [l.slice(0, n)] *)
Definition slice0 {A} (n : nat) (l : list A) : list A := take n l.

(** The handler's computation on the list [movements] returned by the
    store; [sevenDaysAgo] is the time value of the date the handler builds
    from the clock. *)
Definition computeStatistics (sevenDaysAgo : Z) (movements : list StockMovement.t)
    : MovementStatistics :=
  let totalMovements := length movements in
  let entradas := filter (λ m, StockMovement.type m = "entrada") movements in
  let salidas := filter (λ m, StockMovement.type m = "salida") movements in
  let totalEntradas := reduce_quantity entradas in
  let totalSalidas := reduce_quantity salidas in
  let recentMovements :=
    filter (λ m, sevenDaysAgo < StockMovement.createdAt m) movements in
  let productStats := productStats_reduce movements in
  mkStatistics
    (Summary.mk totalMovements (length entradas) (length salidas)
       totalEntradas totalSalidas (totalEntradas - totalSalidas)%Qc
       (length recentMovements))
    (Object_values productStats)
    (slice0 10 (Array_sort compareFn recentMovements)).


(** ** The sample store

    Product ['1'] of the server's sample data ([init-sample-data]), one
    user, and no movement yet. *)

Definition coca_cola : Product.t :=
  Product.mk "1" "Coca Cola 600ml" "Bebidas" (Qc_of_Z 5) (Qc_of_Z 24)
    (Qc_of_Z 5) (Some "Bebida gaseosa sabor cola")
    1705276800000 1705276800000.

Definition ana : User.t :=
  User.mk "u-1" "ana@tienda.bo" "Ana" "employee" true.

Definition sample_store : Store :=
  mkStore {["1" := coca_cola]} ∅ {["u-1" := ana]}.

Definition sample_effects : Effects :=
  mkEffects 1717200000000 "k3x9q2m1z" 1717200000000 1717200000000.

Definition request (type : string) (quantity : Qc) : MovementRequest :=
  mkRequest "1" type (JNumber quantity) "".

(** ** The stock-changing routes as transitions of the store *)

Inductive Request :=
  | PATCH_stock (id : string) (quantity : JsValue)
  | POST_movements (body : MovementRequest).

Definition handle (eff : Effects) (auth : option string) (req : Request)
    (st : Store) : Store :=
  match req with
  | PATCH_stock id quantity => (patch_stock eff auth id quantity st).2
  | POST_movements body => (post_movement eff auth body st).2
  end.


(** Between [st] and [st'], every product whose stock differs has a
    movement record, written by the transition, that accounts for it. *)
Definition stock_change_recorded (st st' : Store) : Prop :=
  ∀ id p p',
    products st !! id = Some p → products st' !! id = Some p' →
    Product.stock p ≠ Product.stock p' →
    ∃ k mv,
      movements st' = <[k := mv]> (movements st) ∧
      StockMovement.productId mv = id ∧
      StockMovement.previousStock mv = Product.stock p ∧
      StockMovement.newStock mv = Product.stock p'.



(** ** What the statistics are meant to be

    Sums and counts over a movement list, written by recursion on the
    list, independently of the handler's [filter]/[reduce] pipeline. *)


Definition is_entrada (m : StockMovement.t) : Prop :=
  StockMovement.type m = "entrada".
Definition is_salida (m : StockMovement.t) : Prop :=
  StockMovement.type m = "salida".
Definition of_product (pid : string) (m : StockMovement.t) : Prop :=
  StockMovement.productId m = pid.

Global Instance is_entrada_dec m : Decision (is_entrada m).
Proof. unfold is_entrada. apply _. Defined.
Global Instance is_salida_dec m : Decision (is_salida m).
Proof. unfold is_salida. apply _. Defined.
Global Instance of_product_dec pid m : Decision (of_product pid m).
Proof. unfold of_product. apply _. Defined.




(** Newest first. *)
Definition newest_first (a b : StockMovement.t) : Prop :=
  StockMovement.createdAt b ≤ StockMovement.createdAt a.

(** The specification's [recentActivity]: the full movement list sorted
    descending by [createdAt], first 10. *)
Definition spec_recentActivity (M : list StockMovement.t) : list StockMovement.t :=
  take 10 (Array_sort compareFn M).

(** A movement of product ['1'] by the sample user. *)
Definition movement_of (id productName type : string) (quantity previousStock newStock : Z)
    (createdAt : Z) : StockMovement.t :=
  StockMovement.mk id "1" productName type (Qc_of_Z quantity) "" "u-1" "Ana"
    (Qc_of_Z previousStock) (Qc_of_Z newStock) createdAt.


(** ** verifyAuth

    The identity provider ([supabaseAdmin.auth.getUser]) is the input
    [getUser]: the id of the user a token belongs to, or [None] when the
    provider reports an error or no user.  [anonKey] is
    [Deno.env.get('SUPABASE_ANON_KEY')]. *)

(** [s.split(sep)] for a one-character separator. *)
Fixpoint split_on (sep : Ascii.ascii) (s : string) : list string :=
  match s with
  | EmptyString => [""]
  | String c s' =>
    if decide (c = sep) then "" :: split_on sep s'
    else match split_on sep s' with
         | w :: ws => String c w :: ws
         | [] => [String c ""]
         end
  end.

(** [c] occurs in [s]. *)
Fixpoint occurs (c : Ascii.ascii) (s : string) : bool :=
  match s with
  | EmptyString => false
  | String a s' => bool_decide (a = c) || occurs c s'
  end.

(** The separator of [authHeader.split(' ')]. *)
Definition space : Ascii.ascii := Ascii.ascii_of_nat 32.

Inductive AuthResult :=
  | Auth_error (error : string)
  | Auth_user (user_id : string).

Definition verifyAuth (anonKey : option string) (getUser : string → option string)
    (authHeader : option string) : AuthResult :=
  match authHeader with
  | None => Auth_error "No authorization header provided"
  | Some h =>
    if bool_decide (h = "") then Auth_error "No authorization header provided"
    else
      match split_on space h !! 1%nat with
      | None => Auth_error "No valid authorization token provided"
      | Some accessToken =>
        if bool_decide (accessToken = "") || bool_decide (Some accessToken = anonKey)
        then Auth_error "No valid authorization token provided"
        else
          match getUser accessToken with
          | None => Auth_error "Invalid authorization token"
          | Some user_id => Auth_user user_id
          end
      end
  end.

(** What the routes keep of [verifyAuth]: [if (error) return 401], else
    [user.id]. *)
Definition auth_of (r : AuthResult) : option string :=
  match r with
  | Auth_error _ => None
  | Auth_user user_id => Some user_id
  end.

(** [getAuthHeaders] of [StockMovementService]: the session's token, or
    the public anon key when there is no session. *)
Definition getAuthHeaders (publicAnonKey : string) (session : option string) : string :=
  match session with
  | Some accessToken =>
    if bool_decide (accessToken = "") then "Bearer " +:+ publicAnonKey
    else "Bearer " +:+ accessToken
  | None => "Bearer " +:+ publicAnonKey
  end.

(** ** The product routes *)

Inductive ProductResponse :=
  | PR_Unauthorized                      (* 401 *)
  | PR_MissingFields                     (* 400 *)
  | PR_NotFound                          (* 404 *)
  | PR_Ok (product : Product.t)          (* 200 *)
  | PR_Created (product : Product.t)     (* 201 *)
  | PR_Deleted.                          (* 200, message only *)

(** GET /products/:id *)
Definition get_product (auth : option string) (id : string) (st : Store)
    : ProductResponse :=
  match auth with
  | None => PR_Unauthorized
  | Some _ =>
    match products st !! id with
    | None => PR_NotFound
    | Some product => PR_Ok product
    end
  end.

(** The body of POST /products, at the fields [ProductFormData] declares.
    A missing or empty [name] or [category] is [""]; [price] is [None]
    when it is [null] or missing. *)
Module ProductFormData.
Record t := mk {
  name : string;
  category : string;
  price : option Qc;
  stock : Qc;
  minStock : Qc;
  description : option string
}.
End ProductFormData.

(** POST /products.  [created] and [product_time eff] are the two clock
    readings of [createdAt] and [updatedAt]. *)
Definition post_product (eff : Effects) (created : Z) (auth : option string)
    (productData : ProductFormData.t) (st : Store) : ProductResponse * Store :=
  match auth with
  | None => (PR_Unauthorized, st)
  | Some _ =>
    if bool_decide (ProductFormData.name productData = "") then (PR_MissingFields, st)
    else if bool_decide (ProductFormData.category productData = "") then
      (PR_MissingFields, st)
    else
      match ProductFormData.price productData with
      | None => (PR_MissingFields, st)
      | Some price =>
        let id := pretty (Date_now eff) in
        let product :=
          Product.mk id (ProductFormData.name productData)
            (ProductFormData.category productData) price
            (ProductFormData.stock productData)
            (ProductFormData.minStock productData)
            (ProductFormData.description productData)
            created (product_time eff) in
        (PR_Created product,
         mkStore (<[id := product]> (products st)) (movements st) (users st))
      end
  end.

(** The body of PUT /products/:id, a [Partial<ProductFormData>]: each
    field is present or not. *)
Module ProductUpdates.
Record t := mk {
  name : option string;
  category : option string;
  price : option Qc;
  stock : option Qc;
  minStock : option Qc;
  description : option string
}.
End ProductUpdates.

(** [{ ...existingProduct, ...updates, id, updatedAt }] *)
Definition spread_updates (existingProduct : Product.t) (updates : ProductUpdates.t)
    (id : string) (now : Z) : Product.t :=
  Product.mk id
    (default (Product.name existingProduct) (ProductUpdates.name updates))
    (default (Product.category existingProduct) (ProductUpdates.category updates))
    (default (Product.price existingProduct) (ProductUpdates.price updates))
    (default (Product.stock existingProduct) (ProductUpdates.stock updates))
    (default (Product.minStock existingProduct) (ProductUpdates.minStock updates))
    (match ProductUpdates.description updates with
     | Some d => Some d
     | None => Product.description existingProduct
     end)
    (Product.createdAt existingProduct) now.

(** PUT /products/:id *)
Definition put_product (eff : Effects) (auth : option string) (id : string)
    (updates : ProductUpdates.t) (st : Store) : ProductResponse * Store :=
  match auth with
  | None => (PR_Unauthorized, st)
  | Some _ =>
    match products st !! id with
    | None => (PR_NotFound, st)
    | Some existingProduct =>
      let updatedProduct := spread_updates existingProduct updates id (product_time eff) in
      (PR_Ok updatedProduct,
       mkStore (<[id := updatedProduct]> (products st)) (movements st) (users st))
    end
  end.

(** DELETE /products/:id *)
Definition delete_product (auth : option string) (id : string) (st : Store)
    : ProductResponse * Store :=
  match auth with
  | None => (PR_Unauthorized, st)
  | Some _ =>
    match products st !! id with
    | None => (PR_NotFound, st)
    | Some _ =>
      (PR_Deleted, mkStore (delete id (products st)) (movements st) (users st))
    end
  end.

(** ** The movement lists *)

(** The key a movement is stored under: [`movement:${productId}:${movementId}`]. *)
Definition movement_key (k : string * string) : string :=
  "movement:" +:+ k.1 +:+ ":" +:+ k.2.

(** [key.startsWith(prefix)]: what a prefix scan of the store matches. *)
Fixpoint startsWith (prefix s : string) : bool :=
  match prefix, s with
  | EmptyString, _ => true
  | String a p, String b s' => bool_decide (a = b) && startsWith p s'
  | String _ _, EmptyString => false
  end.

(** [kv.getByPrefix(`movement:${productId}:`)] *)
Definition getByPrefix_movement_of (productId : string) (st : Store)
    : list StockMovement.t :=
  (map_to_list
     (filter (λ kv, startsWith ("movement:" +:+ productId +:+ ":") (movement_key kv.1) = true)
        (movements st))).*2.

(** GET /movements: [None] is the 401 answer. *)
Definition get_movements (auth : option string) (st : Store)
    : option (list StockMovement.t) :=
  match auth with
  | None => None
  | Some _ => Some (Array_sort compareFn (getByPrefix_movement st))
  end.

(** GET /products/:id/movements *)
Definition get_product_movements (auth : option string) (productId : string)
    (st : Store) : option (list StockMovement.t) :=
  match auth with
  | None => None
  | Some _ => Some (Array_sort compareFn (getByPrefix_movement_of productId st))
  end.

(** ** POST /init-sample-data *)

Definition sampleProducts : list Product.t :=
  [ coca_cola;
    Product.mk "2" "Papas Fritas Pequeñas" "Snacks" (Q2Qc (7 # 2)) (Qc_of_Z 15)
      (Qc_of_Z 10) (Some "Papas fritas sabor natural") 1705363200000 1705363200000;
    Product.mk "3" "Chocolate Sublime" "Dulces" (Q2Qc (9 # 2)) (Qc_of_Z 8)
      (Qc_of_Z 5) (Some "Chocolate con maní boliviano") 1705449600000 1705449600000;
    Product.mk "4" "Jabón Bolivar" "Higiene" (Q2Qc (5 # 2)) (Qc_of_Z 3)
      (Qc_of_Z 5) (Some "Jabón de tocador boliviano") 1705536000000 1705536000000;
    Product.mk "5" "Detergente Ace" "Limpieza" (Qc_of_Z 15) (Qc_of_Z 12)
      (Qc_of_Z 3) (Some "Detergente en polvo 1kg") 1705622400000 1705622400000 ].

(** [kv.getByPrefix('product:')] *)
Definition getByPrefix_product (st : Store) : list Product.t :=
  (map_to_list (products st)).*2.

(** The route needs no authentication.  Its answer is the number it
    reports as [products] and the flag [existing]. *)
Definition init_sample_data (st : Store) : (nat * bool) * Store :=
  let existingProducts := getByPrefix_product st in
  if bool_decide (length existingProducts = 0%nat) then
    let st' :=
      foldl (λ st product,
               mkStore (<[Product.id product := product]> (products st))
                 (movements st) (users st))
        st sampleProducts in
    let productsCreated := length sampleProducts in
    ((productsCreated, false), st')
  else
    ((length existingProducts, true), st).

(** ** The user routes (admin only) *)

Inductive UserResponse :=
  | UR_Unauthorized                     (* 401 *)
  | UR_Forbidden                        (* 403 *)
  | UR_NotFound                         (* 404 *)
  | UR_Users (users : list User.t)      (* 200 *)
  | UR_Deleted.                         (* 200, message only *)

(** [!adminData || adminData.role !== 'admin'] *)
Definition not_admin (st : Store) (user_id : string) : bool :=
  match users st !! user_id with
  | None => true
  | Some adminData => negb (bool_decide (User.role adminData = "admin"))
  end.

(** GET /users *)
Definition get_users (auth : option string) (st : Store) : UserResponse :=
  match auth with
  | None => UR_Unauthorized
  | Some user_id =>
    if not_admin st user_id then UR_Forbidden
    else UR_Users (map_to_list (users st)).*2
  end.

(** DELETE /users/:id.  The deletion at the identity provider is outside
    the store; its failure is caught and ignored by the route. *)
Definition delete_user (auth : option string) (userId : string) (st : Store)
    : UserResponse * Store :=
  match auth with
  | None => (UR_Unauthorized, st)
  | Some user_id =>
    if not_admin st user_id then (UR_Forbidden, st)
    else
      match users st !! userId with
      | None => (UR_NotFound, st)
      | Some _ =>
        (UR_Deleted, mkStore (products st) (movements st) (delete userId (users st)))
      end
  end.

(** The separator of the store's keys. *)
Definition colon : Ascii.ascii := Ascii.ascii_of_nat 58.

(** ** Every modelled route as a transition of the store *)

Inductive Route :=
  | PATCH_products_stock (id : string) (quantity : JsValue)
  | POST_movements_route (body : MovementRequest)
  | POST_products (created : Z) (productData : ProductFormData.t)
  | PUT_products (id : string) (updates : ProductUpdates.t)
  | DELETE_products (id : string)
  | POST_init_sample_data
  | DELETE_users (userId : string).

Definition serve (eff : Effects) (auth : option string) (route : Route)
    (st : Store) : Store :=
  match route with
  | PATCH_products_stock id quantity => (patch_stock eff auth id quantity st).2
  | POST_movements_route body => (post_movement eff auth body st).2
  | POST_products created productData =>
    (post_product eff created auth productData st).2
  | PUT_products id updates => (put_product eff auth id updates st).2
  | DELETE_products id => (delete_product auth id st).2
  | POST_init_sample_data => (init_sample_data st).2
  | DELETE_users userId => (delete_user auth userId st).2
  end.




(** ** The movement form ([StockMovementForm])

    The form holds the selected product, as the client last loaded it,
    and the [type] and [quantity] being typed. *)

(** [x || 0] on a number. *)
Definition or_zero (x : Qc) : Qc := if decide (x = 0%Qc) then 0%Qc else x.

Definition canProcessSalida (selectedProductData : option Product.t)
    (type : string) (quantity : Qc) : bool :=
  match selectedProductData with
  | Some p =>
    if bool_decide (type = "salida") then
      bool_decide (quantity ≤ or_zero (Product.stock p))%Qc
    else true
  | None => true
  end.

Definition getPreviewStock (selectedProductData : option Product.t)
    (type : string) (quantity : Qc) : Qc :=
  match selectedProductData with
  | None => 0%Qc
  | Some p =>
    let currentStock := or_zero (Product.stock p) in
    let quantity := or_zero quantity in
    if bool_decide (type = "entrada") then (currentStock + quantity)%Qc
    else Math_max 0%Qc (currentStock - quantity)%Qc
  end.

(** ** The inventory figures ([useInventory], [Dashboard]) *)

Module InventoryStats.
Record t := mk {
  totalProducts : nat;
  totalValue : Qc;
  lowStock : nat;
  outOfStock : nat;
  inStock : nat;
  categories : nat
}.
End InventoryStats.

Definition inventory_stats (currentProducts : list Product.t) (categories : nat)
    : InventoryStats.t :=
  InventoryStats.mk
    (length currentProducts)
    (foldl (λ sum product, sum + Product.price product * Product.stock product)%Qc
       0%Qc currentProducts)
    (length (filter (λ product,
                       (Product.stock product ≤ Product.minStock product)%Qc
                       ∧ (0 < Product.stock product)%Qc) currentProducts))
    (length (filter (λ product, Product.stock product = 0%Qc) currentProducts))
    (length (filter (λ product,
                       (Product.minStock product < Product.stock product)%Qc)
               currentProducts))
    categories.

Definition lowStockProducts (currentProducts : list Product.t) : list Product.t :=
  filter (λ product, (Product.stock product ≤ Product.minStock product)%Qc)
    currentProducts.

(** [Dashboard]: the two groups it shows out of [lowStockProducts]. *)
Definition criticalStockProducts (lowStockProducts : list Product.t) : list Product.t :=
  filter (λ p, Product.stock p = 0%Qc) lowStockProducts.

Definition lowStockOnly (lowStockProducts : list Product.t) : list Product.t :=
  filter (λ p, (0 < Product.stock p)%Qc ∧ (Product.stock p ≤ Product.minStock p)%Qc)
    lowStockProducts.

(** ** The offline stock update ([useOfflineMode])

    The hook's state is the flag [isOffline] and the array [products]. *)

(** [products.find(p => p.id === id)] *)
Definition find_product (id : string) (products : list Product.t)
    : option Product.t :=
  snd <$> list_find (λ p, Product.id p = id) products.

(** [updateOfflineProduct(id, updates)]: the new array. *)
Definition updateOfflineProduct (isOffline : bool) (now : Z) (id : string)
    (updates : ProductUpdates.t) (products : list Product.t) : list Product.t :=
  if negb isOffline then products
  else
    (λ product,
       if bool_decide (Product.id product = id)
       then spread_updates product updates (Product.id product) now
       else product) <$> products.

(** [updateOfflineStock(id, quantity)]: what it returns and the new array. *)
Definition updateOfflineStock (isOffline : bool) (now : Z) (id : string)
    (quantity : Qc) (products : list Product.t)
    : option Product.t * list Product.t :=
  if negb isOffline then (None, products)
  else
    match find_product id products with
    | None => (None, products)
    | Some product =>
      let newStock := Math_max 0%Qc (Product.stock product + quantity)%Qc in
      (Some (with_stock product newStock (Product.updatedAt product)),
       updateOfflineProduct isOffline now id
         (ProductUpdates.mk None None None (Some newStock) None None) products)
    end.



(** ** The product list ([ProductList]) *)

Definition getStockBadgeText (stock minStock : Qc) : string :=
  if decide (stock = 0%Qc) then "Sin stock"
  else if decide (stock ≤ minStock)%Qc then "Stock bajo"
  else "Stock normal".

(** What [handleStockUpdate] does once the update has succeeded: the stock
    it announces ([NotificationService.stockUpdated]) and the alert it
    raises, if any. *)
Inductive StockAlert := OutOfStockAlert | LowStockAlert | NoAlert.

Definition handleStockUpdate (product : Product.t) (quantity : Qc)
    : Qc * StockAlert :=
  let newStock := (Product.stock product + quantity)%Qc in
  (newStock,
   if decide (newStock = 0%Qc) then OutOfStockAlert
   else if decide ((newStock ≤ Product.minStock product)%Qc
                   ∧ (Product.minStock product < Product.stock product + quantity)%Qc)
        then LowStockAlert
        else NoAlert).

(** ** A store with an administrator *)

Definition administrador : User.t :=
  User.mk "u-0" "admin@tienda.com" "Administrador Principal" "admin" true.

Definition admin_store : Store :=
  mkStore {["1" := coca_cola]} ∅ (<["u-0" := administrador]> {["u-1" := ana]}).

(** * Properties *)

(** ** Numbers *)

Lemma Math_max_0_nonneg (x : Qc) : (0 ≤ Math_max 0 x)%Qc.
Proof. unfold Math_max. case_decide; [done | apply Qcle_refl]. Qed.

Lemma Math_max_0_id (x : Qc) : (0 ≤ x)%Qc → Math_max 0 x = x.
Proof. unfold Math_max. intros. by case_decide. Qed.

Lemma Qc_minus_nonneg (p q : Qc) : (q ≤ p)%Qc ↔ (0 ≤ p - q)%Qc.
Proof. unfold Qcminus. apply Qcle_minus_iff. Qed.





(** A fraction in lowest terms with a denominator other than 1 is not an
    integer. *)
Lemma not_isInteger_Q2Qc (n : Z) (d : positive) :
  Qred (n # d) = n # d → d ≠ 1%positive → ¬ isInteger (Q2Qc (n # d)).
Proof.
  intros Hred Hd [z Hz]. apply (f_equal this) in Hz. simpl in Hz.
  rewrite Hred in Hz. unfold inject_Z in Hz. congruence.
Qed.

Lemma typeof_number (v : JsValue) : typeof v = "number" ↔ ∃ q, v = JNumber q.
Proof.
  split; [|by intros [q ->]].
  destruct v; simpl; try discriminate. eauto.
Qed.

(** ** Field validation of POST /movements *)

Lemma validate_fields_Some (body : MovementRequest) (q : Qc) :
  validate_fields body = Some q ↔
  productId body ≠ "" ∧ type body ≠ "" ∧ quantity body = JNumber q ∧ (0 < q)%Qc.
Proof.
  unfold validate_fields.
  case_bool_decide as Hp; [by split; [|intros (? & _)]|].
  case_bool_decide as Ht; [by split; [|intros (_ & ? & _)]|].
  destruct (quantity body) as [| | |n|];
    try (split; [done | by intros (_ & _ & ? & _)]).
  case_decide as Hn.
  - split; [done|]. intros (_ & _ & [= ->] & Hq).
    by apply Qclt_not_le in Hq.
  - apply Qcnot_le_lt in Hn. split.
    + by intros [= <-].
    + by intros (_ & _ & [= ->] & _).
Qed.

Lemma validate_fields_None (body : MovementRequest) :
  validate_fields body = None ↔
  productId body = "" ∨ type body = "" ∨ typeof (quantity body) ≠ "number"
  ∨ ∃ q, quantity body = JNumber q ∧ (q ≤ 0)%Qc.
Proof.
  unfold validate_fields.
  case_bool_decide as Hp; [by split; [left|]|].
  case_bool_decide as Ht; [by split; [right; left|]|].
  destruct (quantity body) as [| | |n|]; simpl;
    try (split; [intros _; right; right; left; discriminate | done]).
  case_decide as Hn.
  - split; [|done]. intros _. right; right; right. eauto.
  - split; [done|]. intros [?|[?|[?|(q & [= <-] & ?)]]]; done.
Qed.

(** Every refusal leaves the store as it was. *)
Lemma post_movement_refused_unchanged eff auth body st :
  (∀ mv up, (post_movement eff auth body st).1 ≠ MR_Created mv up) →
  (post_movement eff auth body st).2 = st.
Proof.
  unfold post_movement. intros H.
  destruct auth; [|done]. destruct (validate_fields body); [|done].
  destruct (negb _); [done|]. destruct (products st !! _); [|done].
  destruct (users st !! _); [|done].
  destruct (compute_newStock _ _ _); [done|].
  simpl in H. by specialize (H _ _ eq_refl).
Qed.

(** What an accepted request went through. *)
Lemma post_movement_Created eff auth body st mv up st' :
  post_movement eff auth body st = (MR_Created mv up, st') →
  ∃ user_id q product userData newStock,
    auth = Some user_id ∧
    validate_fields body = Some q ∧
    type body ∈ ["entrada"; "salida"] ∧
    products st !! productId body = Some product ∧
    users st !! user_id = Some userData ∧
    compute_newStock (type body) (Product.stock product) q = inr newStock ∧
    mv = StockMovement.mk (movementId eff) (productId body)
           (Product.name product) (type body) q (reason body) user_id
           (User.name userData) (Product.stock product) newStock
           (movement_time eff) ∧
    up = with_stock product newStock (product_time eff) ∧
    st' = mkStore (<[productId body := up]> (products st))
            (<[(productId body, movementId eff) := mv]> (movements st))
            (users st).
Proof.
  unfold post_movement.
  destruct auth as [user_id|]; [|done].
  destruct (validate_fields body) as [q|]; [|done].
  case_bool_decide as Hty; simpl; [|done].
  destruct (products st !! _) as [product|] eqn:Hp; [|done].
  destruct (users st !! _) as [userData|] eqn:Hu; [|done].
  destruct (compute_newStock _ _ _) as [|newStock] eqn:Hn; [done|].
  intros [= <- <- <-]. by exists user_id, q, product, userData, newStock.
Qed.

Lemma compute_newStock_entrada (previousStock q : Qc) :
  compute_newStock "entrada" previousStock q = inr (previousStock + q)%Qc.
Proof. done. Qed.

Lemma compute_newStock_salida (previousStock q : Qc) :
  compute_newStock "salida" previousStock q =
  if decide (previousStock < q)%Qc then inl previousStock
  else inr (previousStock - q)%Qc.
Proof.
  unfold compute_newStock. simpl. case_decide as H; [done|].
  apply Qcnot_lt_le, Qc_minus_nonneg in H. by rewrite Math_max_0_id.
Qed.

(** ** Movement registration *)

Section valid_request.
Context (eff : Effects) (user_id : string) (body : MovementRequest) (st : Store).
Context (q : Qc) (P : Product.t) (userData : User.t).
Hypothesis Hid : productId body ≠ "".
Hypothesis Hq : quantity body = JNumber q.
Hypothesis Hpos : (0 < q)%Qc.
Hypothesis HP : products st !! productId body = Some P.
Hypothesis Hu : users st !! user_id = Some userData.

Let r := post_movement eff (Some user_id) body st.



End valid_request.



(** C9. An accepted salida is never clamped: the request is accepted only
    when [quantity ≤ previousStock], there [Math.max(0, previousStock -
    quantity)] is [previousStock - quantity], and that exact difference is
    what the movement and the product store. *)
Theorem accepted_salida_not_clamped eff auth body st mv up st' :
  type body = "salida" →
  post_movement eff auth body st = (MR_Created mv up, st') →
  ∃ P q,
    products st !! productId body = Some P ∧
    quantity body = JNumber q ∧
    (q ≤ Product.stock P)%Qc ∧
    Math_max 0 (Product.stock P - q) = (Product.stock P - q)%Qc ∧
    StockMovement.previousStock mv = Product.stock P ∧
    StockMovement.newStock mv = (Product.stock P - q)%Qc ∧
    Product.stock up = (Product.stock P - q)%Qc ∧
    products st' !! productId body = Some up.
Proof.
  intros Hty (uid & q & P & u & n & -> & Hv & _ & HP & _ & Hn & -> & -> & ->)
    %post_movement_Created.
  apply validate_fields_Some in Hv as (_ & _ & Hq & _).
  rewrite Hty, compute_newStock_salida in Hn.
  case_decide as Hlt; [done|]. injection Hn as <-.
  apply Qcnot_lt_le in Hlt.
  exists P, q. simpl. repeat split; try done.
  - by apply Math_max_0_id, (proj1 (Qc_minus_nonneg _ _)).
  - by rewrite lookup_insert_eq.
Qed.

Lemma accepted_salida_not_clamped_witness :
  ∃ P q,
    products sample_store !! "1" = Some P ∧
    (q ≤ Product.stock P)%Qc ∧
    Math_max 0 (Product.stock P - q) = (Product.stock P - q)%Qc.
Proof.
  destruct (accepted_salida_not_clamped sample_effects (Some "u-1")
              (request "salida" (Qc_of_Z 24)) sample_store
              _ _ _ eq_refl eq_refl)
    as (P & q & HP & _ & Hle & Hmax & _).
  by exists P, q.
Defined.

(** C2 (as the handler has it). A request whose quantity is not a number,
    or is a number that is not positive, fails with InvalidInput and the
    store is left as it was.  Nothing asks the number to be an integer. *)
Theorem non_positive_quantity_rejected eff user_id body st :
  typeof (quantity body) ≠ "number"
  ∨ (∃ q, quantity body = JNumber q ∧ (q ≤ 0)%Qc) →
  let r := post_movement eff (Some user_id) body st in
  r.1 = MR_InvalidFields ∧ error_kind r.1 = Some InvalidInput ∧ r.2 = st.
Proof.
  intros Hq. unfold post_movement.
  replace (validate_fields body) with (@None Qc); [done|].
  symmetry. apply validate_fields_None. destruct Hq; auto.
Qed.

Lemma non_positive_quantity_rejected_witness :
  let r := post_movement sample_effects (Some "u-1") (request "entrada" 0%Qc)
             sample_store in
  r.1 = MR_InvalidFields ∧ error_kind r.1 = Some InvalidInput ∧ r.2 = sample_store.
Proof.
  apply (non_positive_quantity_rejected sample_effects "u-1"
           (request "entrada" 0%Qc) sample_store).
  right. exists 0%Qc. split; [reflexivity | vm_compute; discriminate].
Defined.

(** C2, as the claim is worded, fails: an entrada of 2.5 units, a positive
    quantity that is not an integer, is accepted; product ['1'] goes from
    24 to 26.5 and a movement is recorded. *)
Lemma fractional_quantity_accepted :
  let r := post_movement sample_effects (Some "u-1")
             (request "entrada" (Q2Qc (5 # 2))) sample_store in
  ¬ isInteger (Q2Qc (5 # 2)) ∧
  error_kind r.1 = None ∧
  (∃ mv up, r.1 = MR_Created mv up) ∧
  Product.stock <$> products r.2 !! "1" = Some (Q2Qc (53 # 2)) ∧
  size (movements r.2) = 1%nat ∧
  r.2 ≠ sample_store.
Proof.
  repeat split.
  - by apply not_isInteger_Q2Qc.
  - by eexists _, _.
  - intros H. apply (f_equal (λ s, size (movements s))) in H.
    vm_compute in H. discriminate.
Qed.

(** ** Stock changes and the ledger *)



Lemma patch_stock_movements eff auth id quantity st :
  movements (patch_stock eff auth id quantity st).2 = movements st.
Proof.
  unfold patch_stock. destruct auth; [|done].
  destruct quantity; try done. by destruct (products st !! id).
Qed.

(** C4 (as the routes have it). A stock change made by POST /movements
    always comes with the movement record that accounts for it, written in
    the same transition; PATCH /products/:id/stock never writes to the
    ledger, whatever it does to the stock. *)
Theorem movement_route_records_stock_change eff auth st :
  (∀ body, stock_change_recorded st (handle eff auth (POST_movements body) st))
  ∧ (∀ id quantity,
       movements (handle eff auth (PATCH_stock id quantity) st) = movements st).
Proof.
  split; [|intros; apply patch_stock_movements].
  intros body id p p' Hp Hp' Hne. simpl in *.
  destruct (post_movement eff auth body st) as [resp st'] eqn:E.
  destruct resp as [| | | | | |mv up];
    try (pose proof (post_movement_refused_unchanged eff auth body st) as Hst;
         rewrite E in Hst; simpl in *; rewrite Hst in Hp' by done; congruence).
  apply post_movement_Created in E
    as (uid & q & P & u & n & -> & _ & _ & HP & _ & _ & -> & -> & ->).
  simpl in *. destruct (decide (productId body = id)) as [<-|Hid].
  - rewrite lookup_insert_eq in Hp'. injection Hp' as <-.
    rewrite HP in Hp. injection Hp as <-. by eexists _, _.
  - rewrite lookup_insert_ne in Hp' by done. congruence.
Qed.

(** C4, as the claim is worded, fails: the direct stock update takes
    product ['1'] from 24 to 34 and the ledger stays empty. *)
Lemma direct_stock_update_skips_ledger :
  let st' := handle sample_effects (Some "u-1")
               (PATCH_stock "1" (JNumber (Qc_of_Z 10))) sample_store in
  Product.stock <$> products sample_store !! "1" = Some (Qc_of_Z 24) ∧
  Product.stock <$> products st' !! "1" = Some (Qc_of_Z 24 + Qc_of_Z 10)%Qc ∧
  movements st' = ∅ ∧
  ¬ stock_change_recorded sample_store st'.
Proof.
  repeat split.
  intros H.
  destruct (H "1" coca_cola
              (with_stock coca_cola (Qc_of_Z 24 + Qc_of_Z 10)%Qc 1717200000000))
    as (k & mv & Hm & _); [done|done|by vm_compute|].
  apply (f_equal (λ m, m !! k)) in Hm.
  by rewrite lookup_insert_eq in Hm.
Qed.

(** ** The stock invariant *)










(** ** Statistics: the summary *)





(** ** Statistics: the per-product rollup *)

















(** ** Statistics: recent activity *)

Lemma compareFn_le (a b : StockMovement.t) :
  compareFn a b ≤ 0 ↔ newest_first a b.
Proof. unfold compareFn, newest_first. lia. Qed.

Global Instance newest_first_trans : Transitive newest_first.
Proof. unfold newest_first. intros a b c. lia. Qed.

Lemma sort_insert_Permutation {A} (cmp : A → A → Z) (x : A) (l : list A) :
  sort_insert cmp x l ≡ₚ x :: l.
Proof.
  induction l as [|y l IH]; simpl; [done|].
  case_decide; [done|]. by rewrite IH, Permutation_swap.
Qed.

Lemma Array_sort_Permutation {A} (cmp : A → A → Z) (l : list A) :
  Array_sort cmp l ≡ₚ l.
Proof.
  induction l as [|x l IH]; simpl; [done|].
  by rewrite sort_insert_Permutation, IH.
Qed.

Lemma sort_insert_sorted (x : StockMovement.t) (l : list StockMovement.t) :
  StronglySorted newest_first l →
  StronglySorted newest_first (sort_insert compareFn x l).
Proof.
  induction l as [|y l IH]; simpl; intros Hl.
  - by repeat constructor.
  - apply StronglySorted_inv in Hl as [Hl Hy].
    case_decide as Hxy.
    + apply compareFn_le in Hxy. constructor; [by constructor|].
      constructor; [done|].
      eapply Forall_impl; [exact Hy|]. intros z Hz. by trans y.
    + constructor; [by apply IH|].
      rewrite sort_insert_Permutation. constructor; [|done].
      unfold compareFn, newest_first in *. lia.
Qed.

Lemma Array_sort_sorted (l : list StockMovement.t) :
  StronglySorted newest_first (Array_sort compareFn l).
Proof.
  induction l as [|x l IH]; simpl; [constructor|].
  by apply sort_insert_sorted.
Qed.

(** Movements of one same instant keep their order. *)
Lemma sort_insert_stable (ts : Z) (x : StockMovement.t) (l : list StockMovement.t) :
  filter (λ m, StockMovement.createdAt m = ts) (sort_insert compareFn x l)
  = filter (λ m, StockMovement.createdAt m = ts) (x :: l).
Proof.
  induction l as [|y l IH]; simpl; [done|].
  case_decide as Hxy; [done|].
  rewrite (filter_cons _ y), IH, !filter_cons.
  unfold compareFn in Hxy.
  repeat case_decide; try done; lia.
Qed.

Lemma Array_sort_stable (ts : Z) (l : list StockMovement.t) :
  filter (λ m, StockMovement.createdAt m = ts) (Array_sort compareFn l)
  = filter (λ m, StockMovement.createdAt m = ts) l.
Proof.
  induction l as [|x l IH]; simpl; [done|].
  by rewrite sort_insert_stable, !filter_cons, IH.
Qed.

(** C3 (as the handler has it). [recentActivity] is made of the movements
    of the last seven days only: it is the first 10 of those movements put
    newest first, movements of one same instant keeping their order. *)
Theorem recentActivity_of_last_seven_days (sevenDaysAgo : Z)
    (M : list StockMovement.t) :
  let recent := filter (λ m, sevenDaysAgo < StockMovement.createdAt m) M in
  ∃ sorted,
    sorted ≡ₚ recent ∧
    StronglySorted newest_first sorted ∧
    (∀ ts, filter (λ m, StockMovement.createdAt m = ts) sorted
           = filter (λ m, StockMovement.createdAt m = ts) recent) ∧
    recentActivity (computeStatistics sevenDaysAgo M) = take 10 sorted ∧
    recentActivity (computeStatistics sevenDaysAgo M) = spec_recentActivity recent.
Proof.
  intros recent. exists (Array_sort compareFn recent). repeat split.
  - apply Array_sort_Permutation.
  - apply Array_sort_sorted.
  - intros ts. apply Array_sort_stable.
Qed.

(** C3, as the claim is worded, fails: a ledger whose only movement is
    older than seven days has an empty [recentActivity], though that
    movement is the most recent one overall. *)
Lemma old_movement_not_in_recentActivity :
  let old := movement_of "1705276800000-a" "Coca Cola 600ml" "entrada" 10 24 34
               1705276800000 in
  let sevenDaysAgo := 1717200000000 - 7 * 24 * 60 * 60 * 1000 in
  recentActivity (computeStatistics sevenDaysAgo [old]) = [] ∧
  spec_recentActivity [old] = [old] ∧
  recentActivity (computeStatistics sevenDaysAgo [old]) ≠ spec_recentActivity [old].
Proof. by repeat split. Qed.

(** * Further properties of the server *)

(** ** verifyAuth *)

Lemma split_on_cons_nonempty (sep : Ascii.ascii) (s : string) : split_on sep s ≠ [].
Proof.
  destruct s as [|c s]; simpl; [done|].
  case_decide; [done|]. by destruct (split_on sep s).
Qed.

Lemma split_on_no_sep (sep : Ascii.ascii) (s : string) :
  occurs sep s = false → split_on sep s = [s].
Proof.
  induction s as [|c s IH]; simpl; [done|].
  intros [Hc Hs]%orb_false_elim. apply bool_decide_eq_false in Hc.
  rewrite decide_False by done. by rewrite IH.
Qed.

Lemma split_on_app (sep : Ascii.ascii) (a b : string) :
  occurs sep a = false →
  split_on sep (a +:+ String sep b) = a :: split_on sep b.
Proof.
  induction a as [|c a IH]; simpl.
  - intros _. by rewrite decide_True.
  - intros [Hc Ha]%orb_false_elim. apply bool_decide_eq_false in Hc.
    rewrite decide_False by done. by rewrite IH.
Qed.

Lemma second_word (scheme tok : string) :
  occurs space scheme = false → occurs space tok = false →
  split_on space (scheme +:+ " " +:+ tok) !! 1%nat = Some tok.
Proof.
  intros Hs Ht. change (" " +:+ tok) with (String space tok).
  by rewrite split_on_app, split_on_no_sep.
Qed.

Lemma app_space_nonempty (scheme tok : string) : scheme +:+ " " +:+ tok ≠ "".
Proof. by destruct scheme. Qed.

(** X1. The token is the second space-separated word of the header; the
    first word (the scheme) is not looked at.  A non-empty token other
    than the anon key is handed to the identity provider, whose answer
    decides. *)
Theorem verifyAuth_second_word anonKey getUser (scheme tok : string) :
  occurs space scheme = false → occurs space tok = false →
  tok ≠ "" → Some tok ≠ anonKey →
  verifyAuth anonKey getUser (Some (scheme +:+ " " +:+ tok)) =
  match getUser tok with
  | Some user_id => Auth_user user_id
  | None => Auth_error "Invalid authorization token"
  end.
Proof.
  intros Hs Ht Hne Hanon. unfold verifyAuth.
  rewrite bool_decide_eq_false_2 by apply app_space_nonempty.
  rewrite second_word by done.
  by rewrite !bool_decide_eq_false_2 by done.
Qed.

Lemma verifyAuth_second_word_witness :
  verifyAuth (Some "anon-key") (λ _, Some "u-1")
    (Some ("Token" +:+ " " +:+ "t0k3n")) = Auth_user "u-1".
Proof.
  apply (verifyAuth_second_word (Some "anon-key") (λ _, Some "u-1")
           "Token" "t0k3n"); [reflexivity | reflexivity | discriminate | discriminate].
Defined.

(** X2. A client without a session sends [Bearer <anon key>]:
    [verifyAuth] refuses it without asking the identity provider, so
    POST /movements answers 401 and the store is left as it was. *)
Theorem anonymous_client_cannot_register (key : string) getUser eff body st :
  occurs space key = false →
  let header := getAuthHeaders key None in
  verifyAuth (Some key) getUser (Some header)
  = Auth_error "No valid authorization token provided"
  ∧ post_movement eff (auth_of (verifyAuth (Some key) getUser (Some header))) body st
    = (MR_Unauthorized, st).
Proof.
  intros Hkey header.
  assert (verifyAuth (Some key) getUser (Some header)
          = Auth_error "No valid authorization token provided") as ->; [|done].
  unfold verifyAuth, header, getAuthHeaders.
  change ("Bearer " +:+ key) with ("Bearer" +:+ " " +:+ key).
  rewrite bool_decide_eq_false_2 by apply app_space_nonempty.
  rewrite second_word by done.
  rewrite (bool_decide_eq_true_2 (Some key = Some key)) by done.
  by rewrite orb_true_r.
Qed.

Lemma anonymous_client_cannot_register_witness :
  post_movement sample_effects
    (auth_of (verifyAuth (Some "anon-key") (λ _, Some "u-1")
                (Some (getAuthHeaders "anon-key" None))))
    (request "entrada" (Qc_of_Z 1)) sample_store
  = (MR_Unauthorized, sample_store).
Proof.
  apply (anonymous_client_cannot_register "anon-key" (λ _, Some "u-1")
           sample_effects (request "entrada" (Qc_of_Z 1)) sample_store).
  reflexivity.
Defined.

(** ** The product routes *)



(** X4. Two products created in the same millisecond get the same id: the
    second takes the place of the first, which is lost. *)
Theorem same_millisecond_overwrites eff1 eff2 c1 c2 auth1 auth2 d1 d2 st p1 st1 p2 st2 :
  Date_now eff1 = Date_now eff2 →
  post_product eff1 c1 auth1 d1 st = (PR_Created p1, st1) →
  post_product eff2 c2 auth2 d2 st1 = (PR_Created p2, st2) →
  Product.id p1 = Product.id p2 ∧
  products st2 = <[Product.id p2 := p2]> (products st) ∧
  products st2 !! Product.id p1 = Some p2.
Proof.
  intros Hnow H1 H2.
  unfold post_product in *. destruct auth1, auth2; try done.
  repeat (case_bool_decide; [done|]).
  destruct (ProductFormData.price d1); [|done].
  destruct (ProductFormData.price d2); [|done].
  injection H1 as <- <-. injection H2 as <- <-. simpl.
  rewrite Hnow. repeat split.
  - by rewrite insert_insert_eq.
  - by rewrite lookup_insert_eq.
Qed.

Lemma same_millisecond_overwrites_witness :
  let d1 := ProductFormData.mk "Agua 2L" "Bebidas" (Some (Qc_of_Z 8))
              (Qc_of_Z 12) (Qc_of_Z 4) None in
  let d2 := ProductFormData.mk "Galletas" "Snacks" (Some (Qc_of_Z 3))
              (Qc_of_Z 30) (Qc_of_Z 10) None in
  ∃ p1 st1 p2 st2,
    post_product sample_effects 0 (Some "u-1") d1 sample_store = (PR_Created p1, st1) ∧
    post_product sample_effects 0 (Some "u-1") d2 st1 = (PR_Created p2, st2) ∧
    Product.name p1 = "Agua 2L" ∧
    products st2 !! Product.id p1 = Some p2.
Proof.
  intros d1 d2. eexists _, _, _, _.
  split; [reflexivity|]. split; [reflexivity|]. split; [reflexivity|].
  eapply (same_millisecond_overwrites sample_effects sample_effects 0 0
            (Some "u-1") (Some "u-1") d1 d2 sample_store); reflexivity.
Defined.



(** X6. After a product is deleted, GET /products/:id answers 404 and a
    movement request for it, however valid, answers "Product not found"
    and changes nothing; the other products and the whole ledger,
    including the deleted product's movements, stay. *)
Theorem deleted_product_is_gone auth id st st' :
  delete_product auth id st = (PR_Deleted, st') →
  (∀ user_id, get_product (Some user_id) id st' = PR_NotFound) ∧
  (∀ eff user_id body q,
     productId body = id → validate_fields body = Some q →
     type body ∈ ["entrada"; "salida"] →
     post_movement eff (Some user_id) body st' = (MR_ProductNotFound, st')) ∧
  (∀ id', id' ≠ id → products st' !! id' = products st !! id') ∧
  movements st' = movements st.
Proof.
  unfold delete_product. destruct auth; [|done].
  destruct (products st !! id) eqn:Hp; [|done].
  intros [= <-]. simpl. repeat split.
  - intros _. unfold get_product. simpl. by rewrite lookup_delete_eq.
  - intros eff user_id body q <- Hv Hty. unfold post_movement.
    rewrite Hv, bool_decide_eq_true_2 by done. simpl.
    by rewrite lookup_delete_eq.
  - intros id' Hid. by rewrite lookup_delete_ne.
Qed.

Lemma deleted_product_is_gone_witness :
  ∃ st',
    delete_product (Some "u-1") "1" sample_store = (PR_Deleted, st') ∧
    get_product (Some "u-1") "1" st' = PR_NotFound ∧
    post_movement sample_effects (Some "u-1") (request "entrada" (Qc_of_Z 10)) st'
    = (MR_ProductNotFound, st').
Proof.
  eexists. split; [reflexivity|].
  match goal with
  | |- get_product _ _ ?st' = _ ∧ _ =>
    destruct (deleted_product_is_gone (Some "u-1") "1" sample_store st' eq_refl)
      as (Hget & Hpost & _)
  end.
  split; [apply (Hget "u-1")|].
  apply (Hpost sample_effects "u-1" (request "entrada" (Qc_of_Z 10)) (Qc_of_Z 10));
    [reflexivity | reflexivity | by left].
Defined.

(** ** The movement lists *)

Lemma elem_of_getByPrefix_movement (st : Store) (m : StockMovement.t) :
  m ∈ getByPrefix_movement st ↔ ∃ k, movements st !! k = Some m.
Proof.
  unfold getByPrefix_movement. rewrite list_elem_of_fmap. split.
  - intros ([k m'] & -> & H). exists k. by apply elem_of_map_to_list.
  - intros [k H]. exists (k, m). split; [done|]. by apply elem_of_map_to_list.
Qed.

Lemma startsWith_app (a b c : string) :
  startsWith (a +:+ b) (a +:+ c) = startsWith b c.
Proof.
  induction a as [|x a IH]; simpl; [done|].
  by rewrite bool_decide_eq_true_2.
Qed.

(** Ids without a colon: the scan of one product's prefix matches that
    product's keys only. *)
Lemma startsWith_id (p q mid : string) :
  occurs colon p = false → occurs colon q = false →
  startsWith (p +:+ ":") (q +:+ ":" +:+ mid) = true ↔ p = q.
Proof.
  revert q. induction p as [|a p IH]; intros [|b q]; simpl.
  - done.
  - intros _ [Hb _]%orb_false_elim. apply bool_decide_eq_false in Hb.
    rewrite bool_decide_eq_false_2; [done|].
    intros <-. by apply Hb.
  - intros [Ha _]%orb_false_elim _. apply bool_decide_eq_false in Ha.
    rewrite bool_decide_eq_false_2; [done|].
    intros ->. by apply Ha.
  - intros [_ Hp]%orb_false_elim [_ Hq]%orb_false_elim.
    case_bool_decide as Hab; simpl.
    + subst b. rewrite IH by done. split; [by intros ->|by intros [= ->]].
    + split; [done|]. by intros [= ? _].
Qed.

Lemma movement_key_prefix (productId : string) (k : string * string) :
  startsWith ("movement:" +:+ productId +:+ ":") (movement_key k)
  = startsWith (productId +:+ ":") (k.1 +:+ ":" +:+ k.2).
Proof. unfold movement_key. apply (startsWith_app "movement:"). Qed.

Lemma elem_of_getByPrefix_movement_of (productId : string) (st : Store)
    (m : StockMovement.t) :
  m ∈ getByPrefix_movement_of productId st ↔
  ∃ k, movements st !! k = Some m ∧
       startsWith (productId +:+ ":") (k.1 +:+ ":" +:+ k.2) = true.
Proof.
  unfold getByPrefix_movement_of. rewrite list_elem_of_fmap. split.
  - intros ([k m'] & -> & H).
    apply elem_of_map_to_list, map_lookup_filter_Some in H as [H Hk].
    cbn [fst] in Hk. rewrite movement_key_prefix in Hk. by exists k.
  - intros (k & H & Hk). exists (k, m). split; [done|].
    apply elem_of_map_to_list, map_lookup_filter_Some. split; [done|].
    cbn [fst]. by rewrite movement_key_prefix.
Qed.

(** X7. GET /movements returns every stored movement, each once, newest
    first. *)
Theorem all_movements_newest_first (user_id : string) (st : Store) :
  ∃ l,
    get_movements (Some user_id) st = Some l ∧
    l ≡ₚ getByPrefix_movement st ∧
    length l = size (movements st) ∧
    StronglySorted newest_first l ∧
    (∀ m, m ∈ l ↔ ∃ k, movements st !! k = Some m).
Proof.
  eexists. split; [done|]. split; [apply Array_sort_Permutation|].
  split; [|split].
  - rewrite Array_sort_Permutation. unfold getByPrefix_movement.
    by rewrite length_fmap, length_map_to_list.
  - apply Array_sort_sorted.
  - intros m. rewrite Array_sort_Permutation.
    apply elem_of_getByPrefix_movement.
Qed.

(** X8. When no product id contains a colon, GET /products/:id/movements
    returns exactly the movements stored for that product, newest
    first. *)
Theorem product_movements_newest_first (user_id productId : string) (st : Store) :
  occurs colon productId = false →
  (∀ k, is_Some (movements st !! k) → occurs colon k.1 = false) →
  ∃ l,
    get_product_movements (Some user_id) productId st = Some l ∧
    StronglySorted newest_first l ∧
    (∀ m, m ∈ l ↔ ∃ movementId, movements st !! (productId, movementId) = Some m).
Proof.
  intros Hp Hst. eexists. split; [done|]. split; [apply Array_sort_sorted|].
  intros m. rewrite Array_sort_Permutation, elem_of_getByPrefix_movement_of.
  split.
  - intros ([pid mid] & Hm & Hk). simpl in Hk.
    apply startsWith_id in Hk as ->; [by exists mid|done|].
    by apply (Hst (pid, mid)).
  - intros [mid Hm]. exists (productId, mid). split; [done|]. simpl.
    by apply startsWith_id.
Qed.

Lemma product_movements_newest_first_witness :
  let st := mkStore {["1" := coca_cola]}
              {[("1", "1717200000000-a") :=
                  movement_of "1717200000000-a" "Coca Cola 600ml" "entrada" 10 24 34
                    1717200000000]}
              {["u-1" := ana]} in
  ∃ l,
    get_product_movements (Some "u-1") "1" st = Some l ∧
    StronglySorted newest_first l ∧
    (∀ m, m ∈ l ↔ ∃ movementId, movements st !! ("1", movementId) = Some m).
Proof.
  intros st.
  apply (product_movements_newest_first "u-1" "1" st); [reflexivity|].
  intros k [m Hm]. simpl in Hm.
  apply lookup_singleton_Some in Hm as [<- _]. reflexivity.
Defined.

(** X9. A registered movement is listed at once, under its product and
    in the full list; when it is later than everything in the ledger it
    comes first in both. *)
Theorem registered_movement_is_listed eff auth body st mv up st' :
  post_movement eff auth body st = (MR_Created mv up, st') →
  ∀ user_id, ∃ l_product l_all,
    get_product_movements (Some user_id) (productId body) st' = Some l_product ∧
    get_movements (Some user_id) st' = Some l_all ∧
    mv ∈ l_product ∧ mv ∈ l_all ∧
    ((∀ k m, movements st !! k = Some m →
             StockMovement.createdAt m < movement_time eff) →
     head l_product = Some mv ∧ head l_all = Some mv).
Proof.
  intros (uid & q & P & u & n & -> & _ & _ & _ & _ & _ & Hmv & -> & ->)
    %post_movement_Created user_id.
  set (key := (productId body, movementId eff)).
  assert (mv ∈ getByPrefix_movement_of (productId body)
                 (mkStore (<[productId body := with_stock P n (product_time eff)]> (products st))
                    (<[key := mv]> (movements st)) (users st))) as Hin1.
  { apply elem_of_getByPrefix_movement_of. exists key. simpl.
    split; [by rewrite lookup_insert_eq|].
    by rewrite startsWith_app. }
  assert (∀ l : list StockMovement.t,
            (∀ m, m ∈ l → ∃ k, <[key := mv]> (movements st) !! k = Some m) →
            (∀ k m, movements st !! k = Some m →
                    StockMovement.createdAt m < movement_time eff) →
            mv ∈ l → head (Array_sort compareFn l) = Some mv) as Hhead.
  { intros l Hl Hold Hin.
    pose proof (Array_sort_sorted l) as Hs.
    pose proof (Array_sort_Permutation compareFn l) as Hp.
    destruct (Array_sort compareFn l) as [|x l'] eqn:E.
    { rewrite <- Hp in Hin. by apply elem_of_nil in Hin. }
    simpl. f_equal. apply StronglySorted_inv in Hs as [_ Hx].
    assert (x ∈ l) as Hxl by (rewrite <- Hp; left).
    destruct (Hl x Hxl) as [k Hk].
    destruct (decide (k = key)) as [->|Hne].
    { rewrite lookup_insert_eq in Hk. by injection Hk. }
    rewrite lookup_insert_ne in Hk by done. apply Hold in Hk.
    rewrite <- Hp in Hin. apply elem_of_cons in Hin as [->|Hin]; [done|].
    rewrite Forall_forall in Hx. specialize (Hx _ Hin).
    unfold newest_first in Hx. rewrite Hmv in Hx. simpl in Hx. lia. }
  eexists _, _. split; [done|]. split; [done|].
  split; [by rewrite Array_sort_Permutation|].
  split.
  { rewrite Array_sort_Permutation. apply elem_of_getByPrefix_movement.
    exists key. simpl. by rewrite lookup_insert_eq. }
  intros Hold. split; apply Hhead; try done.
  - intros m (k & Hk & _)%elem_of_getByPrefix_movement_of. by exists k.
  - intros m Hm%elem_of_getByPrefix_movement. done.
  - apply elem_of_getByPrefix_movement. exists key. simpl.
    by rewrite lookup_insert_eq.
Qed.

Lemma registered_movement_is_listed_witness :
  ∃ mv up st' l_product l_all,
    post_movement sample_effects (Some "u-1") (request "entrada" (Qc_of_Z 10))
      sample_store = (MR_Created mv up, st') ∧
    get_product_movements (Some "u-1") "1" st' = Some l_product ∧
    get_movements (Some "u-1") st' = Some l_all ∧
    head l_product = Some mv ∧ head l_all = Some mv.
Proof.
  eexists _, _, _.
  match goal with
  | |- ∃ _ _, _ = (MR_Created ?mv ?up, ?st') ∧ _ =>
    destruct (registered_movement_is_listed sample_effects (Some "u-1")
                (request "entrada" (Qc_of_Z 10)) sample_store mv up st' eq_refl "u-1")
      as (l1 & l2 & H1 & H2 & _ & _ & Hhead)
  end.
  exists l1, l2. split; [reflexivity|]. split; [exact H1|]. split; [exact H2|].
  apply Hhead. intros k m Hm. simpl in Hm. by rewrite lookup_empty in Hm.
Defined.

(** ** The ledger across all routes *)

Lemma serve_movements eff auth route st :
  movements (serve eff auth route st) = movements st
  ∨ ∃ body mv up st',
      route = POST_movements_route body ∧
      post_movement eff auth body st = (MR_Created mv up, st') ∧
      movements (serve eff auth route st)
      = <[(productId body, movementId eff) := mv]> (movements st).
Proof.
  destruct route as [id quantity|body|created data|id updates|id| |userId]; simpl.
  - left. apply patch_stock_movements.
  - destruct (post_movement eff auth body st) as [resp st'] eqn:E.
    destruct resp as [| | | | | |mv up];
      try (left; pose proof (post_movement_refused_unchanged eff auth body st) as H;
           rewrite E in H; simpl in *; by rewrite H).
    right. exists body, mv, up, st'. split; [done|]. split; [done|].
    apply post_movement_Created in E
      as (uid & q & P & u & n & _ & _ & _ & _ & _ & _ & _ & _ & ->).
    done.
  - left. unfold post_product. destruct auth; [|done].
    repeat (case_bool_decide; [done|]).
    by destruct (ProductFormData.price data).
  - left. unfold put_product. destruct auth; [|done].
    by destruct (products st !! id).
  - left. unfold delete_product. destruct auth; [|done].
    by destruct (products st !! id).
  - left. unfold init_sample_data. by case_bool_decide.
  - left. unfold delete_user. destruct auth; [|done].
    destruct (not_admin st _); [done|]. by destruct (users st !! userId).
Qed.





(** X11. No route deletes or rewrites a movement record.  The one way a
    record can be replaced is a new movement of the same product that
    draws the very same movement id. *)
Theorem ledger_is_append_only eff auth route st k m :
  movements st !! k = Some m →
  movements (serve eff auth route st) !! k = Some m
  ∨ ∃ body mv,
      route = POST_movements_route body ∧
      k = (productId body, movementId eff) ∧
      movements (serve eff auth route st) !! k = Some mv.
Proof.
  intros Hk.
  destruct (serve_movements eff auth route st)
    as [Heq|(body & mv & up & st' & Hroute & _ & Heq)]; rewrite Heq; [by left|].
  destruct (decide (k = (productId body, movementId eff))) as [->|Hne].
  - right. exists body, mv. by rewrite lookup_insert_eq.
  - left. by rewrite lookup_insert_ne.
Qed.

Lemma ledger_is_append_only_witness :
  let m := movement_of "1717200000000-a" "Coca Cola 600ml" "entrada" 10 24 34
             1717200000000 in
  let st := mkStore {["1" := coca_cola]} {[("1", "1717200000000-a") := m]}
              {["u-1" := ana]} in
  movements (serve sample_effects (Some "u-1") (DELETE_products "1") st)
    !! ("1", "1717200000000-a") = Some m.
Proof.
  intros m st.
  destruct (ledger_is_append_only sample_effects (Some "u-1") (DELETE_products "1")
              st ("1", "1717200000000-a") m) as [H|(body & mv & Hr & _)];
    [reflexivity | exact H | discriminate].
Defined.

(** ** Statistics of a well-formed ledger *)









(** ** The rollup adds up to the summary *)








(** * Properties of the client *)

(** ** The movement form and the server *)

Lemma or_zero_id (x : Qc) : or_zero x = x.
Proof. unfold or_zero. by case_decide. Qed.

(** X14. The form and the server agree.  With the product as the store
    holds it and a positive quantity, the form lets a movement through
    exactly when the server accepts it, the stock it previews is the
    stock the server stores, and what the form blocks is what the server
    answers with "Stock insuficiente". *)
Theorem form_agrees_with_server eff user_id body st q P userData :
  productId body ≠ "" → quantity body = JNumber q → (0 < q)%Qc →
  products st !! productId body = Some P → users st !! user_id = Some userData →
  type body ∈ ["entrada"; "salida"] →
  let r := post_movement eff (Some user_id) body st in
  (canProcessSalida (Some P) (type body) q = true →
   ∃ mv up, r.1 = MR_Created mv up ∧
            Product.stock up = getPreviewStock (Some P) (type body) q)
  ∧ (canProcessSalida (Some P) (type body) q = false →
     r.1 = MR_InsufficientStock (Product.stock P) ∧ r.2 = st).
Proof.
  intros Hid Hq Hpos HP Hu Hty r. subst r. unfold post_movement.
  assert (validate_fields body = Some q) as ->.
  { apply validate_fields_Some. repeat split; try done.
    intros Hempty. rewrite Hempty in Hty.
    apply elem_of_cons in Hty as [?|Hty%list_elem_of_singleton]; done. }
  rewrite bool_decide_eq_true_2 by done. simpl. rewrite HP, Hu.
  unfold canProcessSalida, getPreviewStock. rewrite !or_zero_id.
  apply elem_of_cons in Hty as [Hty|Hty%list_elem_of_singleton]; rewrite Hty.
  - rewrite compute_newStock_entrada. simpl. split; [|done].
    intros _. by eexists _, _.
  - rewrite compute_newStock_salida. simpl. split.
    + intros Hle%bool_decide_eq_true. rewrite decide_False by by apply Qcle_not_lt.
      eexists _, _. split; [done|]. simpl.
      by rewrite Math_max_0_id by by apply (proj1 (Qc_minus_nonneg _ _)).
    + intros Hgt%bool_decide_eq_false. by rewrite decide_True by by apply Qcnot_le_lt.
Qed.

Lemma form_agrees_with_server_witness :
  canProcessSalida (Some coca_cola) "salida" (Qc_of_Z 30) = false ∧
  (let r := post_movement sample_effects (Some "u-1") (request "salida" (Qc_of_Z 30))
              sample_store in
   r.1 = MR_InsufficientStock (Qc_of_Z 24) ∧ r.2 = sample_store).
Proof.
  split; [reflexivity|].
  apply (form_agrees_with_server sample_effects "u-1" (request "salida" (Qc_of_Z 30))
           sample_store (Qc_of_Z 30) coca_cola ana);
    [discriminate | reflexivity | reflexivity | reflexivity | reflexivity
    | by right; left | reflexivity].
Defined.

(** ** The inventory figures *)

Lemma stock_class (s ms : Qc) :
  (0 ≤ s)%Qc → (0 ≤ ms)%Qc →
  (s = 0%Qc ∧ ¬ (0 < s)%Qc ∧ ¬ (ms < s)%Qc ∧ (s ≤ ms)%Qc)
  ∨ (s ≠ 0%Qc ∧ (0 < s)%Qc ∧ (s ≤ ms)%Qc ∧ ¬ (ms < s)%Qc)
  ∨ (s ≠ 0%Qc ∧ (0 < s)%Qc ∧ ¬ (s ≤ ms)%Qc ∧ (ms < s)%Qc).
Proof.
  intros Hs Hms. destruct (decide (s = 0%Qc)) as [->|Hne].
  - left. repeat split; [by intros ?%Qclt_not_eq | by apply Qcle_not_lt | done].
  - assert (0 < s)%Qc as Hpos.
    { apply Qcle_lt_or_eq in Hs as [?|?]; [done|]. by destruct Hne. }
    destruct (decide (s ≤ ms)%Qc) as [Hle|Hgt].
    + right; left. repeat split; try done. by apply Qcle_not_lt.
    + right; right. repeat split; try done. by apply Qcnot_le_lt.
Qed.

(** X15. When no stock and no minimum is negative, the figures of the
    dashboard partition the products: each product is counted in exactly
    one of [lowStock], [outOfStock] and [inStock]; the low-stock list
    holds the first two groups, which the dashboard splits into its
    critical and its low-only lists. *)
Theorem inventory_counts_partition (currentProducts : list Product.t) (categories : nat) :
  Forall (λ p, (0 ≤ Product.stock p)%Qc ∧ (0 ≤ Product.minStock p)%Qc) currentProducts →
  let s := inventory_stats currentProducts categories in
  InventoryStats.totalProducts s
  = (InventoryStats.lowStock s + InventoryStats.outOfStock s + InventoryStats.inStock s)%nat ∧
  length (lowStockProducts currentProducts)
  = (InventoryStats.lowStock s + InventoryStats.outOfStock s)%nat ∧
  length (criticalStockProducts (lowStockProducts currentProducts))
  = InventoryStats.outOfStock s ∧
  length (lowStockOnly (lowStockProducts currentProducts))
  = InventoryStats.lowStock s.
Proof.
  unfold lowStockProducts, criticalStockProducts, lowStockOnly. simpl.
  rewrite !list_filter_filter.
  induction 1 as [|p l [Hs Hms] _ (IH1 & IH2 & IH3 & IH4)]; [done|].
  rewrite !filter_cons.
  destruct (stock_class _ _ Hs Hms)
    as [(H0 & Hpos & Hin & Hle)|[(H0 & Hpos & Hle & Hin)|(H0 & Hpos & Hle & Hin)]].
  all: repeat (first [ rewrite decide_True by tauto
                     | rewrite decide_False by tauto ]).
  all: simpl; rewrite ?IH3, ?IH4; lia.
Qed.

Lemma inventory_counts_partition_witness :
  let s := inventory_stats sampleProducts 5 in
  InventoryStats.totalProducts s
  = (InventoryStats.lowStock s + InventoryStats.outOfStock s + InventoryStats.inStock s)%nat ∧
  length (lowStockProducts sampleProducts)
  = (InventoryStats.lowStock s + InventoryStats.outOfStock s)%nat ∧
  length (criticalStockProducts (lowStockProducts sampleProducts))
  = InventoryStats.outOfStock s ∧
  length (lowStockOnly (lowStockProducts sampleProducts))
  = InventoryStats.lowStock s.
Proof.
  apply (inventory_counts_partition sampleProducts 5).
  repeat constructor; vm_compute; discriminate.
Defined.

(** ** The offline stock update and the server *)

Lemma find_product_cons (id : string) (x : Product.t) (l : list Product.t) :
  find_product id (x :: l)
  = if decide (Product.id x = id) then Some x else find_product id l.
Proof.
  unfold find_product. simpl. case_decide; [done|].
  by destruct (list_find _ l) as [[]|].
Qed.

Lemma find_product_updated (now : Z) (id : string) (updates : ProductUpdates.t)
    (l : list Product.t) :
  find_product id (updateOfflineProduct true now id updates l)
  = (λ p, spread_updates p updates (Product.id p) now) <$> find_product id l.
Proof.
  unfold updateOfflineProduct. simpl.
  induction l as [|x l IH]; [done|].
  rewrite fmap_cons, !find_product_cons.
  case_bool_decide as Hx; simpl.
  - by rewrite !decide_True.
  - by rewrite !decide_False.
Qed.

(** X16. Offline, the stock update computes what the server's PATCH
    computes: from the same product and the same quantity both end with
    the same stock, never negative; the offline array keeps its length
    and holds the updated product under the same id. *)
Theorem offline_stock_update_matches_server eff user_id now id q
    (offlineProducts : list Product.t) st p :
  find_product id offlineProducts = Some p →
  products st !! id = Some p →
  ∃ returned offlineProducts' updatedProduct st',
    updateOfflineStock true now id q offlineProducts = (Some returned, offlineProducts') ∧
    patch_stock eff (Some user_id) id (JNumber q) st = (SR_Ok updatedProduct, st') ∧
    Product.stock returned = Product.stock updatedProduct ∧
    (0 ≤ Product.stock returned)%Qc ∧
    find_product id offlineProducts'
    = Some (with_stock p (Product.stock updatedProduct) now) ∧
    length offlineProducts' = length offlineProducts.
Proof.
  intros Hfind Hp. eexists _, _, _, _.
  unfold updateOfflineStock, patch_stock. simpl. rewrite Hfind, Hp.
  split; [done|]. split; [done|]. simpl.
  split; [done|]. split; [apply Math_max_0_nonneg|]. split.
  - change (negb true) with false. cbv iota.
    by rewrite find_product_updated, Hfind.
  - unfold updateOfflineProduct. simpl. by rewrite length_fmap.
Qed.

Lemma offline_stock_update_matches_server_witness :
  ∃ returned offlineProducts' updatedProduct st',
    updateOfflineStock true 1717200000000 "1" (- Qc_of_Z 30)%Qc sampleProducts
    = (Some returned, offlineProducts') ∧
    patch_stock sample_effects (Some "u-1") "1" (JNumber (- Qc_of_Z 30)%Qc) sample_store
    = (SR_Ok updatedProduct, st') ∧
    Product.stock returned = Product.stock updatedProduct ∧
    (0 ≤ Product.stock returned)%Qc.
Proof.
  destruct (offline_stock_update_matches_server sample_effects "u-1" 1717200000000
              "1" (- Qc_of_Z 30)%Qc sampleProducts sample_store coca_cola)
    as (r & l' & u & st' & H1 & H2 & H3 & H4 & _); [reflexivity | reflexivity |].
  by exists r, l', u, st'.
Defined.

(** * Further properties of the server: seeding and users *)

Lemma getByPrefix_product_empty (st : Store) :
  length (getByPrefix_product st) = 0%nat ↔ products st = ∅.
Proof.
  unfold getByPrefix_product. rewrite length_fmap, length_map_to_list.
  apply map_size_empty_iff.
Qed.

Lemma init_sample_data_nonempty (st : Store) :
  products st ≠ ∅ →
  init_sample_data st = ((length (getByPrefix_product st), true), st).
Proof.
  intros Hne. unfold init_sample_data.
  rewrite bool_decide_eq_false_2; [done|]. by rewrite getByPrefix_product_empty.
Qed.

Lemma init_sample_data_empty (st : Store) :
  products st = ∅ →
  ∃ m : gmap string Product.t,
    (init_sample_data st).2
    = mkStore (<["5" := default coca_cola (last sampleProducts)]> m)
        (movements st) (users st).
Proof.
  intros Hempty. unfold init_sample_data.
  rewrite bool_decide_eq_true_2 by by apply getByPrefix_product_empty.
  simpl. by eexists.
Qed.

(** X17. Seeding never touches a store that has a product: existing
    products stay as they are, the ledger and the users are not written,
    the result always has products, and seeding again changes nothing. *)
Theorem init_sample_data_keeps_existing (st : Store) :
  let st' := (init_sample_data st).2 in
  (∀ id p, products st !! id = Some p → products st' !! id = Some p) ∧
  products st' ≠ ∅ ∧
  (init_sample_data st').2 = st' ∧
  movements st' = movements st ∧ users st' = users st.
Proof.
  intros st'. subst st'.
  destruct (decide (products st = ∅)) as [Hempty|Hne].
  - destruct (init_sample_data_empty st Hempty) as [m ->]. simpl.
    repeat split.
    + intros id p Hp. by rewrite Hempty, lookup_empty in Hp.
    + apply insert_non_empty.
    + rewrite init_sample_data_nonempty; [done|]. apply insert_non_empty.
  - rewrite !init_sample_data_nonempty by done. simpl.
    by repeat split.
Qed.

(** X18. Once a user's record is deleted — only an admin can do it, and
    nothing stops an admin from deleting their own — no movement request
    authenticated as that user is accepted or changes the store, a
    request that is valid otherwise is answered "User data not found",
    and the user routes answer that user 403.  Products and ledger are
    untouched by the deletion. *)
Theorem deleted_user_cannot_register auth userId st st' :
  delete_user auth userId st = (UR_Deleted, st') →
  (∃ admin_id adminData,
     auth = Some admin_id ∧ users st !! admin_id = Some adminData ∧
     User.role adminData = "admin") ∧
  (∀ eff body mv up, (post_movement eff (Some userId) body st').1 ≠ MR_Created mv up) ∧
  (∀ eff body, (post_movement eff (Some userId) body st').2 = st') ∧
  (∀ eff body q P,
     validate_fields body = Some q → type body ∈ ["entrada"; "salida"] →
     products st' !! productId body = Some P →
     (post_movement eff (Some userId) body st').1 = MR_UserNotFound) ∧
  get_users (Some userId) st' = UR_Forbidden ∧
  products st' = products st ∧ movements st' = movements st.
Proof.
  unfold delete_user. destruct auth as [admin_id|]; [|done].
  unfold not_admin. destruct (users st !! admin_id) as [adminData|] eqn:Ha; [|done].
  case_bool_decide as Hrole; [|done]. cbn [negb].
  destruct (users st !! userId) eqn:Hu; [|done].
  intros [= <-].
  assert (∀ eff body mv up,
            (post_movement eff (Some userId) body
               (mkStore (products st) (movements st) (delete userId (users st)))).1
            ≠ MR_Created mv up) as Hnever.
  { intros eff body mv up. unfold post_movement.
    destruct (validate_fields body); [|done].
    destruct (negb _); [done|]. simpl.
    destruct (products st !! productId body); [|done].
    by rewrite lookup_delete_eq. }
  split; [by exists admin_id, adminData|].
  split; [done|]. split.
  { intros eff body. apply post_movement_refused_unchanged. apply Hnever. }
  split.
  { intros eff body q P Hv Hty HP. unfold post_movement. simpl in *.
    rewrite Hv, bool_decide_eq_true_2 by done. simpl.
    by rewrite HP, lookup_delete_eq. }
  split; [|done].
  unfold get_users, not_admin. simpl. by rewrite lookup_delete_eq.
Qed.

Lemma deleted_user_cannot_register_witness :
  ∃ st',
    delete_user (Some "u-0") "u-0" admin_store = (UR_Deleted, st') ∧
    (post_movement sample_effects (Some "u-0") (request "entrada" (Qc_of_Z 10)) st').1
    = MR_UserNotFound ∧
    get_users (Some "u-0") st' = UR_Forbidden.
Proof.
  eexists. split; [reflexivity|].
  match goal with
  | |- (post_movement _ _ _ ?st').1 = _ ∧ _ =>
    destruct (deleted_user_cannot_register (Some "u-0") "u-0" admin_store st' eq_refl)
      as (_ & _ & _ & Hpost & Husers & _)
  end.
  split; [|exact Husers].
  apply (Hpost sample_effects (request "entrada" (Qc_of_Z 10)) (Qc_of_Z 10) coca_cola);
    [reflexivity | by left | reflexivity].
Defined.

(** ** Two ways to take stock out *)

(** X19. Taking [q] units out through a salida and through the direct
    stock update ([PATCH] with [-q]) leave the same stock when [q] is at
    most the stock; beyond the stock the salida is refused and nothing
    changes, while the direct update stores 0. *)
Theorem salida_versus_direct_update eff user_id body st q P userData :
  productId body ≠ "" → type body = "salida" → quantity body = JNumber q →
  (0 < q)%Qc →
  products st !! productId body = Some P → users st !! user_id = Some userData →
  ∃ up_patch st_patch,
    patch_stock eff (Some user_id) (productId body) (JNumber (- q)%Qc) st
    = (SR_Ok up_patch, st_patch) ∧
    ((q ≤ Product.stock P)%Qc →
     ∃ mv up, (post_movement eff (Some user_id) body st).1 = MR_Created mv up ∧
              up = up_patch) ∧
    ((Product.stock P < q)%Qc →
     post_movement eff (Some user_id) body st
     = (MR_InsufficientStock (Product.stock P), st) ∧
     Product.stock up_patch = 0%Qc).
Proof.
  intros Hid Hty Hq Hpos HP Hu. eexists _, _.
  unfold patch_stock, post_movement. rewrite HP, Hu.
  assert (validate_fields body = Some q) as ->.
  { apply validate_fields_Some. by rewrite Hty. }
  rewrite Hty, compute_newStock_salida. simpl.
  split; [done|]. split.
  - intros Hle. rewrite decide_False by by apply Qcle_not_lt.
    eexists _, _. split; [done|].
    rewrite Math_max_0_id by by apply (proj1 (Qc_minus_nonneg _ _)). done.
  - intros Hlt. rewrite decide_True by done. split; [done|]. simpl.
    unfold Math_max. rewrite decide_False; [done|].
    intros Hle. change (0 ≤ Product.stock P - q)%Qc in Hle.
    apply (proj2 (Qc_minus_nonneg _ _)) in Hle. by apply Qcle_not_lt in Hle.
Qed.

Lemma salida_versus_direct_update_witness :
  ∃ up_patch st_patch,
    patch_stock sample_effects (Some "u-1") "1" (JNumber (- Qc_of_Z 30)%Qc) sample_store
    = (SR_Ok up_patch, st_patch) ∧
    post_movement sample_effects (Some "u-1") (request "salida" (Qc_of_Z 30)) sample_store
    = (MR_InsufficientStock (Qc_of_Z 24), sample_store) ∧
    Product.stock up_patch = 0%Qc.
Proof.
  destruct (salida_versus_direct_update sample_effects "u-1"
              (request "salida" (Qc_of_Z 30)) sample_store (Qc_of_Z 30) coca_cola ana)
    as (up & st' & Hpatch & _ & Hlt);
    [discriminate | reflexivity | reflexivity | reflexivity | reflexivity
    | reflexivity |].
  exists up, st'. split; [exact Hpatch|]. apply Hlt. reflexivity.
Defined.



(** ** Bounds of the recent activity *)

(** X21. [recentActivity] holds the smaller of 10 and the
    [recentMovements] count, which is at most [totalMovements]; each of
    its movements is a movement of the list, later than the seven-day
    mark. *)
Theorem recentActivity_bounds (sevenDaysAgo : Z) (M : list StockMovement.t) :
  let s := computeStatistics sevenDaysAgo M in
  length (recentActivity s) = (10 `min` Summary.recentMovements (summary s))%nat ∧
  (Summary.recentMovements (summary s) ≤ Summary.totalMovements (summary s))%nat ∧
  (∀ m, m ∈ recentActivity s → m ∈ M ∧ sevenDaysAgo < StockMovement.createdAt m).
Proof.
  intros s. subst s. unfold computeStatistics, slice0.
  cbn [recentActivity summary Summary.recentMovements Summary.totalMovements].
  split; [|split].
  - by rewrite length_take, Array_sort_Permutation.
  - apply length_filter.
  - intros m Hm. apply subseteq_take in Hm.
    rewrite Array_sort_Permutation in Hm.
    apply list_elem_of_filter in Hm as [? ?]. done.
Qed.

(** * Further properties of the client: the product list *)

(** X22. The badge of a product names the group the dashboard counts it
    in, when stock and minimum are not negative: "Sin stock" for the
    out-of-stock count, "Stock bajo" for the low-stock count, "Stock
    normal" for the in-stock count. *)
Theorem badge_matches_counts (p : Product.t) :
  (0 ≤ Product.stock p)%Qc → (0 ≤ Product.minStock p)%Qc →
  let s := inventory_stats [p] 0 in
  let text := getStockBadgeText (Product.stock p) (Product.minStock p) in
  (text = "Sin stock" ↔ InventoryStats.outOfStock s = 1%nat) ∧
  (text = "Stock bajo" ↔ InventoryStats.lowStock s = 1%nat) ∧
  (text = "Stock normal" ↔ InventoryStats.inStock s = 1%nat).
Proof.
  intros Hs Hms. simpl. unfold getStockBadgeText. rewrite !filter_cons, !filter_nil.
  destruct (stock_class _ _ Hs Hms)
    as [(H0 & Hpos & Hin & Hle)|[(H0 & Hpos & Hle & Hin)|(H0 & Hpos & Hle & Hin)]].
  all: repeat (first [ rewrite decide_True by tauto
                     | rewrite decide_False by tauto ]).
  all: simpl; repeat split; done.
Qed.

Lemma badge_matches_counts_witness :
  let s := inventory_stats [coca_cola] 0 in
  let text := getStockBadgeText (Product.stock coca_cola) (Product.minStock coca_cola) in
  (text = "Sin stock" ↔ InventoryStats.outOfStock s = 1%nat) ∧
  (text = "Stock bajo" ↔ InventoryStats.lowStock s = 1%nat) ∧
  (text = "Stock normal" ↔ InventoryStats.inStock s = 1%nat).
Proof.
  apply (badge_matches_counts coca_cola); vm_compute; discriminate.
Defined.

(** X23. After a direct stock update from the product list, the low-stock
    alert is never raised: its condition asks the new stock to be both at
    most and above the minimum.  The stock the list announces is the
    stock the server stored exactly when [stock + quantity] is not
    negative. *)
Theorem stock_update_never_alerts_low eff user_id st id (quantity : Qc) product :
  products st !! id = Some product →
  (handleStockUpdate product quantity).2 ≠ LowStockAlert ∧
  ∃ updatedProduct st',
    patch_stock eff (Some user_id) id (JNumber quantity) st = (SR_Ok updatedProduct, st') ∧
    ((handleStockUpdate product quantity).1 = Product.stock updatedProduct
     ↔ (0 ≤ Product.stock product + quantity)%Qc).
Proof.
  intros Hp. split.
  - unfold handleStockUpdate. simpl. case_decide as Hz; [done|].
    case_decide as Hlow; [|done]. destruct Hlow as [Hle Hlt].
    by apply Qcle_not_lt in Hle.
  - unfold patch_stock. rewrite Hp. eexists _, _. split; [done|]. simpl.
    unfold Math_max. case_decide as Hneg; [done|]. split; [|done].
    intros Heq. rewrite Heq. apply Qcle_refl.
Qed.

Lemma stock_update_never_alerts_low_witness :
  (handleStockUpdate coca_cola (- Qc_of_Z 20)%Qc).2 ≠ LowStockAlert ∧
  ∃ updatedProduct st',
    patch_stock sample_effects (Some "u-1") "1" (JNumber (- Qc_of_Z 20)%Qc) sample_store
    = (SR_Ok updatedProduct, st') ∧
    ((handleStockUpdate coca_cola (- Qc_of_Z 20)%Qc).1 = Product.stock updatedProduct
     ↔ (0 ≤ Product.stock coca_cola + - Qc_of_Z 20)%Qc).
Proof.
  apply (stock_update_never_alerts_low sample_effects "u-1" sample_store "1"
           (- Qc_of_Z 20)%Qc coca_cola).
  reflexivity.
Defined.
